(** * Mention classifier of the CheXpert labeler (stages/classify.py)

  A shallow embedding of [ModifiedDetector] and [Classifier] from
  [chexpert_labeler/stages/classify.py], with the NegBio collaborators
  (ngrex, semgraph, propagator, neg_detector, the pipeline stages) kept
  abstract behind one interface, followed by the properties of the
  precedence cascade, of the first-match scan, of the error path of
  [detect] and of the per-document loop of [classify]. *)

From Stdlib Require Import ZArith String DecimalString List Lia.
From stdpp Require Import base list strings.

Set Implicit Arguments.
Open Scope Z_scope.

(** ** BioC data model *)

(** Modelled from the spec: the BioC document classes come from the bioc
  package, which is not part of classify.py. The spec asks of a document
  "ordered sentences with token offsets and text" plus slots for the
  dependency graph and the recorded detections; classify.py itself reads
  [sentence.offset], [document.passages] and [passage.sentences].
  Everything else an object carries (infons, annotations, relations) is
  the payload [X]. *)
Section BioC.
Variable X : Type.

Record BioCSentence := mkSentence {
  offset : Z;
  text : string;
  sentence_data : X
}.

Record BioCPassage := mkPassage {
  sentences : list BioCSentence;
  passage_data : X
}.

Record BioCDocument := mkDocument {
  passages : list BioCPassage;
  document_data : X
}.

(** The sentence text a document still holds, passage by passage. *)
Definition retained_text (d : BioCDocument) : list string :=
  flat_map (fun p => map text (sentences p)) (passages d).
End BioC.

Arguments offset {X}.
Arguments text {X}.
Arguments sentence_data {X}.
Arguments sentences {X}.
Arguments passage_data {X}.
Arguments passages {X}.
Arguments document_data {X}.
Arguments retained_text {X}.

(** ** Exceptions, log records, generator runs *)

(** What a [raise] can carry. [IndexError] is the one classify.py can raise
  itself (by [document.passages[0]]); [OtherException] stands for the
  instances of [Exception] raised by collaborators, [NonException] for
  the [BaseException]s outside [Exception] (KeyboardInterrupt,
  SystemExit), which [except Exception] does not catch. *)
Inductive Raised (E B : Type) : Type :=
| IndexError
| OtherException (e : E)
| NonException (b : B).
Arguments IndexError {E B}.
Arguments OtherException {E B} e.
Arguments NonException {E B} b.

Definition isinstance_Exception {E B} (r : Raised E B) : bool :=
  match r with
  | NonException _ => false
  | _ => true
  end.

Inductive Level := DEBUG | INFO | WARNING | ERROR | CRITICAL.

(** A record handed to the logging module: [logger.exception(msg)] logs
  [msg] at level ERROR together with the exception being handled. *)
Record LogRecord (E B : Type) := mkLog {
  levelname : Level;
  msg : string;
  exc_info : option (Raised E B)
}.

(** One full iteration of a generator: the records it logged, the values
  it yielded in order, and the exception that ended it, if any. *)
Record Run (E B A : Type) := mkRun {
  logged : list (LogRecord E B);
  yielded : list A;
  raised : option (Raised E B)
}.

(** Modelled from the spec: [NEGATION] and [UNCERTAINTY] are imported from
  chexpert_labeler.constants, which is not part of classify.py; the spec
  gives the label as "one of {NEGATION, UNCERTAINTY}". *)
Inductive Label := NEGATION | UNCERTAINTY.

(** A location is a [(begin, end)] tuple; [loc[0]] and [loc[1]] are its
  projections. *)
Definition Loc : Type := Z * Z.

(** ** The ngrex collaborator *)

(** Compiled graph patterns and their matches, as classify.py uses them.
    The generator [pattern.finditer(graph)] is given by the list of the
    matches it produces, in the order it produces them. *)
Class Ngrex := {
  Node : Type;
  Graph : Type;
  Match : Type;
  Pattern : Type;
  (** [n0 == node] *)
  node_eqb : Node -> Node -> bool;
  (** [pattern.finditer(graph)] *)
  finditer : Pattern -> Graph -> list Match;
  (** [m.group(0)] *)
  group0 : Match -> Node;
  (** the truth value [if m:] sees for a match object *)
  match_truthy : Match -> bool
}.

Section Matching.
Context `{NG : Ngrex}.

(** The inner loop of [match_uncertainty]:
    [for m in pattern.finditer(graph): if m.group(0) == node: return m]. *)
Fixpoint first_bound (ms : list Match) (node : Node) : option Match :=
  match ms with
  | [] => None
  | m :: ms' =>
      if node_eqb (group0 m) node then Some m else first_bound ms' node
  end.

(** The outer loop, [for pattern in patterns]; falling off the end of
    the function returns [None]. *)
Fixpoint scan (patterns : list Pattern) (graph : Graph) (node : Node)
  : option Match :=
  match patterns with
  | [] => None
  | pattern :: patterns' =>
      match first_bound (finditer pattern graph) node with
      | Some m => Some m
      | None => scan patterns' graph node
      end
  end.

(** Some pattern of the set has a match that binds [node]. *)
Definition binds (patterns : list Pattern) (graph : Graph) (node : Node) : Prop :=
  exists pattern m,
    In pattern patterns /\ In m (finditer pattern graph) /\
    node_eqb (group0 m) node = true.

(** [m] does not bind [node]. *)
Definition unbound (node : Node) (m : Match) : Prop :=
  node_eqb (group0 m) node = false.

(** [m] is the first match of pattern [p] that binds [node], [p] comes
    right after the patterns [pre] in the set, and no match of a pattern of
    [pre] binds [node]. *)
Definition earliest_match (patterns : list Pattern) (g : Graph) (node : Node)
  (pre : list Pattern) (p : Pattern) (m : Match) : Prop :=
  exists post ms1 ms2,
    patterns = pre ++ p :: post /\
    finditer p g = ms1 ++ m :: ms2 /\
    node_eqb (group0 m) node = true /\
    Forall (unbound node) ms1 /\
    Forall (fun q => Forall (unbound node) (finditer q g)) pre.

(** Modelled from the spec: [neg_detector.Detector.match_neg] is inherited
    from NegBio and is not part of classify.py. The spec has the negation
    set scanned "identically" to the pre-negation set: in pattern order,
    then in match order, the first match whose bound node equals the
    candidate node. *)
Definition match_neg_by_scan (patterns : list Pattern) (graph : Graph)
  (node : Node) : option Match :=
  scan patterns graph node.

End Matching.

(** ** The other NegBio collaborators *)

(** Everything else classify.py calls but does not define. The generator
    [find_nodes] is given by the list of the nodes it produces; functions
    that mutate their argument in place return the mutated object. *)
Class NegBio (X : Type) `{NG : Ngrex} := {
  ExtExc : Type;
  ExtBase : Type;
  (** [semgraph.load(sentence)] *)
  semgraph_load : BioCSentence X -> Raised ExtExc ExtBase + Graph;
  (** [propagator.propagate(g)], in place *)
  propagate : Graph -> Raised ExtExc ExtBase + Graph;
  (** [neg_detector.find_nodes(g, begin, end)] *)
  find_nodes : Graph -> Z -> Z -> list Node;
  (** [neg_detector.Detector.match_neg], inherited by [ModifiedDetector];
      it reads [self.neg_patterns] *)
  match_neg : list Pattern -> Graph -> Node -> option Match;
  (** [self.parser.parse_doc(document)], in place *)
  parse_doc : BioCDocument X -> BioCDocument X * option (Raised ExtExc ExtBase);
  (** [self.ptb2dep.convert_doc(document)], in place *)
  convert_doc : BioCDocument X -> BioCDocument X * option (Raised ExtExc ExtBase);
  (** [negdetect.detect(document, detector)], in place; the detector is used
      through its [detect] method *)
  negdetect_detect :
    (BioCSentence X -> list Loc ->
     Run ExtExc ExtBase (Label * Match * Loc)) ->
    BioCDocument X -> BioCDocument X * option (Raised ExtExc ExtBase)
}.

Section Detector.
Context {X : Type} `{NB : NegBio X}.

Definition Exc : Type := Raised ExtExc ExtBase.
Definition Detection : Type := Label * Match * Loc.

(** ** ModifiedDetector *)

(** The three attributes [__init__] sets, each the result of
    [ngrex.load] on one rule file. *)
Record ModifiedDetector := mkDetector {
  neg_patterns : list Pattern;
  uncertain_patterns : list Pattern;
  preneg_uncertain_patterns : list Pattern
}.

(** Match objects are true, whatever they hold. *)
Definition matches_truthy : Prop := forall m : Match, match_truthy m = true.

(** What [match_neg] is relied on for: a match it returns was produced by
    a pattern of the negation set and binds the candidate node. *)
Definition match_neg_bound : Prop :=
  forall patterns graph node m,
    match_neg patterns graph node = Some m ->
    exists pattern,
      In pattern patterns /\ In m (finditer pattern graph) /\
      node_eqb (group0 m) node = true.

Definition match_uncertainty (self : ModifiedDetector) graph node :=
  scan (uncertain_patterns self) graph node.

Definition match_prenegation_uncertainty (self : ModifiedDetector) graph node :=
  scan (preneg_uncertain_patterns self) graph node.

(** [if r:] on the result of a matcher: [None] is false, a match object
    has the truth value of its class. *)
Definition if_truthy (r : option Match) : option Match :=
  match r with
  | Some m => if match_truthy m then Some m else None
  | None => None
  end.

(** The body of the node loop of [detect]: what one candidate node
    yields. *)
Definition detect_node (self : ModifiedDetector) (g : Graph) (loc : Loc)
  (node : Node) : list Detection :=
  match if_truthy (match_prenegation_uncertainty self g node) with
  | Some preneg_m => [(UNCERTAINTY, preneg_m, loc)]
  | None =>
      match if_truthy (match_neg (neg_patterns self) g node) with
      | Some neg_m => [(NEGATION, neg_m, loc)]
      | None =>
          match if_truthy (match_uncertainty self g node) with
          | Some postneg_m => [(UNCERTAINTY, postneg_m, loc)]
          | None => []
          end
      end
  end.

(** [for node in neg_detector.find_nodes(g, loc[0], loc[1])] *)
Fixpoint detect_nodes (self : ModifiedDetector) (g : Graph) (loc : Loc)
  (nodes : list Node) : list Detection :=
  match nodes with
  | [] => []
  | node :: nodes' => detect_node self g loc node ++ detect_nodes self g loc nodes'
  end.

(** [for loc in locs] *)
Fixpoint detect_locs (self : ModifiedDetector) (g : Graph) (locs : list Loc)
  : list Detection :=
  match locs with
  | [] => []
  | loc :: locs' =>
      detect_nodes self g loc (find_nodes g (fst loc) (snd loc))
      ++ detect_locs self g locs'
  end.

(** ['Cannot parse dependency graph ' + f'[offset={sentence.offset}]'] *)
Definition cannot_parse_message (sentence : BioCSentence X) : string :=
  "Cannot parse dependency graph " +:+
  ("[offset=" +:+ NilZero.string_of_int (Z.to_int (offset sentence)) +:+ "]").

(** The [except Exception:] clause: an instance of [Exception] is logged
    and raised again; anything else passes through untouched. *)
Definition on_graph_failure (sentence : BioCSentence X) (r : Exc)
  : Run ExtExc ExtBase Detection :=
  if isinstance_Exception r
  then {| logged := [mkLog ERROR (cannot_parse_message sentence) (Some r)];
          yielded := [];
          raised := Some r |}
  else {| logged := []; yielded := []; raised := Some r |}.

(** [ModifiedDetector.detect], iterated to its end. *)
Definition detect (self : ModifiedDetector) (sentence : BioCSentence X)
  (locs : list Loc) : Run ExtExc ExtBase Detection :=
  match semgraph_load sentence with
  | inl r => on_graph_failure sentence r
  | inr g =>
      match propagate g with
      | inl r => on_graph_failure sentence r
      | inr g' =>
          {| logged := []; yielded := detect_locs self g' locs; raised := None |}
      end
  end.

(** ** Classifier *)

(** The collection handed to [classify]; only [collection.documents] is
    read. *)
Record BioCCollection := mkCollection {
  documents : list (BioCDocument X);
  collection_data : X
}.

(** The attributes of a [Classifier] that [classify] reads. The parser and
    the converter it holds are the collaborators [parse_doc] and
    [convert_doc]. *)
Record Classifier := mkClassifier {
  verbose : bool;
  detector : ModifiedDetector
}.

(** What [classify] does to the outside, in the order it does it. The
    number is the position of the document in [collection.documents]. *)
Inductive Event :=
| Stdout (line : string)
| ParseDoc (i : nat)
| ConvertDoc (i : nat)
| NegDetect (i : nat)
| DelSentences (i : nat).

(** Statements of the loop body: they act on the current document, record
    what they did, and may raise. *)
Definition Proc (A : Type) : Type :=
  BioCDocument X * list Event -> (BioCDocument X * list Event) * (Exc + A).

Definition ret {A} (a : A) : Proc A := fun s => (s, inr a).

Definition bind {A B} (c : Proc A) (k : A -> Proc B) : Proc B :=
  fun s =>
    match c s with
    | (s', inl r) => (s', inl r)
    | (s', inr a) => k a s'
    end.

Notation "c1 >>> c2" := (bind c1 (fun _ => c2))
  (at level 65, right associativity).

(** A call that works on the document in place. *)
Definition in_place (ev : Event)
  (f : BioCDocument X -> BioCDocument X * option Exc) : Proc unit :=
  fun s =>
    let (d', r) := f (fst s) in
    ((d', snd s ++ [ev]),
     match r with
     | Some e => inl e
     | None => inr tt
     end).

(** [del document.passages[0].sentences[:]]: indexing an empty list of
    passages raises [IndexError]; otherwise the list of sentences of the
    first passage is emptied. *)
Definition del_sentences (document : BioCDocument X)
  : BioCDocument X * option Exc :=
  match passages document with
  | [] => (document, Some IndexError)
  | p0 :: ps =>
      (mkDocument (mkPassage [] (passage_data p0) :: ps) (document_data document),
       None)
  end.

(** The body of [for document in documents]. *)
Definition classify_document (self : Classifier) (i : nat) : Proc unit :=
  in_place (ParseDoc i) parse_doc >>>
  in_place (ConvertDoc i) convert_doc >>>
  in_place (NegDetect i) (negdetect_detect (detect (detector self))) >>>
  in_place (DelSentences i) del_sentences.

(** The state [classify] leaves behind. *)
Record Outcome := mkOutcome {
  documents_after : list (BioCDocument X);
  trace : list Event;
  failure : option Exc
}.

(** [for document in documents], from position [i] on. *)
Fixpoint classify_loop (self : Classifier) (i : nat)
  (docs : list (BioCDocument X)) (tr : list Event) : Outcome :=
  match docs with
  | [] => mkOutcome [] tr None
  | document :: docs' =>
      match classify_document self i (document, tr) with
      | ((d', tr'), inl r) => mkOutcome (d' :: docs') tr' (Some r)
      | ((d', tr'), inr _) =>
          let out := classify_loop self (S i) docs' tr' in
          mkOutcome (d' :: documents_after out) (trace out) (failure out)
      end
  end.

(** [Classifier.classify]. [tqdm(documents)] iterates over the same
    documents in the same order and is not modelled beyond that. *)
Definition classify (self : Classifier) (collection : BioCCollection) : Outcome :=
  let tr := if verbose self then [Stdout "Classifying mentions..."] else [] in
  classify_loop self 0 (documents collection) tr.

(** ** Auxiliary notions used by the statements *)

(** The (location, node) pairs the two loops of [detect] visit, in the
    order they visit them. *)
Definition visits (g : Graph) (locs : list Loc) : list (Loc * Node) :=
  flat_map (fun loc => map (pair loc) (find_nodes g (fst loc) (snd loc))) locs.

(** The graph [detect] matches against, when building it succeeds. *)
Definition graph_of (sentence : BioCSentence X) : option Graph :=
  match semgraph_load sentence with
  | inl _ => None
  | inr g =>
      match propagate g with
      | inl _ => None
      | inr g' => Some g'
      end
  end.

(** The exception, if any, with which building the graph fails. *)
Definition graph_failure (sentence : BioCSentence X) : option Exc :=
  match semgraph_load sentence with
  | inl r => Some r
  | inr g =>
      match propagate g with
      | inl r => Some r
      | inr _ => None
      end
  end.

(** The first three statements of the loop body on their own, without the
    trace: the document as the detection step leaves it. *)
Definition through_detection (self : Classifier) (document : BioCDocument X)
  : BioCDocument X * option Exc :=
  match parse_doc document with
  | (d1, Some r) => (d1, Some r)
  | (d1, None) =>
      match convert_doc d1 with
      | (d2, Some r) => (d2, Some r)
      | (d2, None) => negdetect_detect (detect (detector self)) d2
      end
  end.

(** *** The batch read as a flat schedule

    The reading of [classify] the specification gives: one list of steps,
    four per document in collection order, run one after the other, each
    once, the run ending at the first step that raises. *)

Definition steps_of (i : nat) : list Event :=
  [ParseDoc i; ConvertDoc i; NegDetect i; DelSentences i].

Definition schedule (self : Classifier) (n : nat) : list Event :=
  (if verbose self then [Stdout "Classifying mentions..."] else [])
  ++ flat_map steps_of (seq 0 n).

(** The document a step works on and what it does to it. *)
Definition action (self : Classifier) (ev : Event)
  : option (nat * (BioCDocument X -> BioCDocument X * option Exc)) :=
  match ev with
  | Stdout _ => None
  | ParseDoc i => Some (i, parse_doc)
  | ConvertDoc i => Some (i, convert_doc)
  | NegDetect i => Some (i, negdetect_detect (detect (detector self)))
  | DelSentences i => Some (i, del_sentences)
  end.

Definition perform (self : Classifier) (ev : Event) (out : Outcome) : Outcome :=
  match action self ev with
  | None => mkOutcome (documents_after out) (trace out ++ [ev]) None
  | Some (i, f) =>
      match documents_after out !! i with
      | None => out
      | Some d =>
          let (d', r) := f d in
          mkOutcome (<[i:=d']> (documents_after out)) (trace out ++ [ev]) r
      end
  end.

Fixpoint run_schedule (self : Classifier) (evs : list Event) (out : Outcome)
  : Outcome :=
  match evs with
  | [] => out
  | ev :: evs' =>
      let out' := perform self ev out in
      match failure out' with
      | Some _ => out'
      | None => run_schedule self evs' out'
      end
  end.

End Detector.

Arguments ModifiedDetector {NG}.
Arguments Classifier {NG}.
Arguments Outcome X {NG NB}.

(** ** The constructors *)

Section Construction.
Context {X : Type} `{NB : NegBio X}.

(** The rule files are named by values of [Path]; [ngrex.load(path)]
    returns the patterns of a file in file order, or raises. *)
Variable Path : Type.
Variable ngrex_load : Path -> Exc + list Pattern.

(** [ModifiedDetector.__init__]: the negation file is loaded first, then
    the post-negation file, then the pre-negation file, although the
    pre-negation path is the first argument. The first load that raises
    ends the construction. *)
Definition ModifiedDetector_init
  (pre_negation_uncertainty_path negation_path
     post_negation_uncertainty_path : Path) : Exc + ModifiedDetector :=
  match ngrex_load negation_path with
  | inl r => inl r
  | inr neg =>
      match ngrex_load post_negation_uncertainty_path with
      | inl r => inl r
      | inr uncertain =>
          match ngrex_load pre_negation_uncertainty_path with
          | inl r => inl r
          | inr preneg => inr (mkDetector neg uncertain preneg)
          end
      end
  end.

(** What building the parser, the lemmatizer and the converter raises, if
    anything: [parse.NegBioParser(model_dir=PARSING_MODEL_DIR)],
    [ptb2ud.Lemmatizer()] and
    [ptb2ud.NegBioPtb2DepConverter(lemmatizer, universal=True)]. The
    objects they build are the collaborators [parse_doc] and
    [convert_doc]. *)
Variable NegBioParser : option Exc.
Variable Lemmatizer : option Exc.
Variable NegBioPtb2DepConverter : option Exc.

(** [Classifier.__init__]; [verbose] is [None] when the argument is left
    out, and then defaults to [False]. *)
Definition Classifier_init
  (pre_negation_uncertainty_path negation_path
     post_negation_uncertainty_path : Path) (verbose : option bool)
  : Exc + Classifier :=
  match NegBioParser with
  | Some r => inl r
  | None =>
      match Lemmatizer with
      | Some r => inl r
      | None =>
          match NegBioPtb2DepConverter with
          | Some r => inl r
          | None =>
              match ModifiedDetector_init pre_negation_uncertainty_path
                      negation_path post_negation_uncertainty_path with
              | inl r => inl r
              | inr detector =>
                  inr (mkClassifier
                         (match verbose with Some b => b | None => false end)
                         detector)
              end
          end
      end
  end.

End Construction.

(** ** A small concrete instance

    Tokens with character ranges, rules that list the nodes they bind, and
    pipeline stages that leave the document alone. It is what the
    statements below are evaluated on. *)
Module Toy.

(** A token: node number, start and end offset. *)
Definition token : Type := nat * (Z * Z).

(** A rule: its number and the nodes it binds, in match order. *)
Definition rule : Type := nat * list nat.

#[global] Instance ngrex : Ngrex := {|
  Node := nat;
  Graph := list token;
  Match := nat * nat;
  Pattern := rule;
  node_eqb := Nat.eqb;
  finditer := fun (p : rule) (_ : list token) => map (pair (fst p)) (snd p);
  group0 := snd;
  match_truthy := fun _ => true
|}.

Definition within (b e : Z) (t : token) : bool :=
  (b <=? fst (snd t)) && (snd (snd t) <=? e).

(** What loading a sentence without tokens raises. *)
Definition no_tokens : Raised string Empty_set :=
  OtherException "sentence without tokens".

#[global] Instance negbio : NegBio (list token) := {|
  ExtExc := string;
  ExtBase := Empty_set;
  semgraph_load := fun s =>
    match sentence_data s with
    | [] => inl no_tokens
    | ts => inr ts
    end;
  propagate := inr;
  find_nodes := fun g b e => map fst (filter (within b e) g);
  match_neg := match_neg_by_scan;
  parse_doc := fun d => (d, None);
  convert_doc := fun d => (d, None);
  negdetect_detect := fun _ d => (d, None)
|}.

(** "no evidence of edema", starting at offset 40 of the report. *)
Definition no_evidence_of_edema : BioCSentence (list token) :=
  mkSentence 40 "no evidence of edema"
    [(0%nat, (40, 42)); (1%nat, (43, 51)); (2%nat, (52, 54)); (3%nat, (55, 60))].

(** A sentence whose dependency structure is missing. *)
Definition malformed : BioCSentence (list token) :=
  mkSentence 17 "edema" [].

(** Rule 1 of the negation file binds "of" and "edema", rule 2 binds
    "edema" again; rule 9 of the post-negation file binds "edema"; of the
    pre-negation file, rule 6 binds "no" and rules 7 and 8 bind "edema". *)
Definition both_sets : ModifiedDetector :=
  mkDetector [(1%nat, [2%nat; 3%nat]); (2%nat, [3%nat])]
             [(9%nat, [3%nat])]
             [(6%nat, [0%nat]); (7%nat, [3%nat]); (8%nat, [3%nat])].

(** The same detector without pre-negation rules. *)
Definition negation_only : ModifiedDetector :=
  mkDetector [(1%nat, [2%nat; 3%nat]); (2%nat, [3%nat])] [(9%nat, [3%nat])] [].

Definition passage_of (ss : list (BioCSentence (list token)))
  : BioCPassage (list token) :=
  mkPassage ss [].

(** A report with an impression and a findings passage. *)
Definition two_passages : BioCDocument (list token) :=
  mkDocument [passage_of [no_evidence_of_edema]; passage_of [malformed]] [].

(** A report without any passage. *)
Definition no_passage : BioCDocument (list token) := mkDocument [] [].

Definition quiet : Classifier := mkClassifier false both_sets.

(** The dependency graph of "no evidence of edema". *)
Definition tokens : list token := sentence_data no_evidence_of_edema.

(** The span of "edema" and the span of "of edema". *)
Definition edema : Loc := (55, 60).
Definition of_edema : Loc := (52, 60).

Definition reports : BioCCollection := mkCollection [two_passages; two_passages] [].

End Toy.

(** The rule files of the concrete instance, and a run that is
    interrupted from the keyboard while a graph is loaded. *)
Module ToyFiles.

(** Three rule files; any other path does not exist. *)
Definition load (path : string) : Raised string Empty_set + list Toy.rule :=
  if String.eqb path "pre_negation_uncertainty.txt"
  then inr [(6%nat, [0%nat]); (7%nat, [3%nat]); (8%nat, [3%nat])]
  else if String.eqb path "negation.txt"
  then inr [(1%nat, [2%nat; 3%nat]); (2%nat, [3%nat])]
  else if String.eqb path "post_negation_uncertainty.txt"
  then inr [(9%nat, [3%nat])]
  else inl (OtherException ("No such file: " +:+ path)).

(** The collaborators of [Toy], except that loading a graph is
    interrupted: what is raised is not an [Exception]. *)
Definition interrupted : @NegBio (list Toy.token) Toy.ngrex := {|
  ExtExc := string;
  ExtBase := unit;
  semgraph_load := fun _ => inl (NonException tt);
  propagate := inr;
  find_nodes := fun g b e => map fst (filter (Toy.within b e) g);
  match_neg := match_neg_by_scan;
  parse_doc := fun d => (d, None);
  convert_doc := fun d => (d, None);
  negdetect_detect := fun _ d => (d, None)
|}.

(** A report whose parse fails is modelled by a parser that raises on
    documents without passages and leaves the others alone. *)
Definition strict_parser : @NegBio (list Toy.token) Toy.ngrex := {|
  ExtExc := string;
  ExtBase := Empty_set;
  semgraph_load := fun s =>
    match sentence_data s with
    | [] => inl Toy.no_tokens
    | ts => inr ts
    end;
  propagate := inr;
  find_nodes := fun g b e => map fst (filter (Toy.within b e) g);
  match_neg := match_neg_by_scan;
  parse_doc := fun d =>
    match passages d with
    | [] => (d, Some (OtherException "nothing to parse"))
    | _ => (d, None)
    end;
  convert_doc := fun d => (d, None);
  negdetect_detect := fun _ d => (d, None)
|}.

(** Detectors with fewer rules: only rule 9 of the post-negation file;
    that file with a rule 10 appended; only rule 1 of the negation file. *)
Definition postnegation_only : @ModifiedDetector Toy.ngrex :=
  mkDetector [] [(9%nat, [3%nat])] [].

Definition longer_file : @ModifiedDetector Toy.ngrex :=
  mkDetector [] [(9%nat, [3%nat]); (10%nat, [3%nat])] [].

Definition one_negation_rule : @ModifiedDetector Toy.ngrex :=
  mkDetector [(1%nat, [2%nat; 3%nat])] [] [].

End ToyFiles.

(** * Properties *)

Unset Implicit Arguments.

(** ** The first-match scan *)

Section MatchingFacts.
Context `{NG : Ngrex}.

Lemma first_bound_None ms node :
  first_bound ms node = None <-> Forall (unbound node) ms.
Proof.
  induction ms as [|m ms IH]; simpl.
  - split; [constructor | reflexivity].
  - destruct (node_eqb (group0 m) node) eqn:E.
    + split; [discriminate |].
      intros HF. inversion HF as [|? ? Hm _]. unfold unbound in Hm. congruence.
    + rewrite IH. split.
      * intros HF. constructor; assumption.
      * intros HF. inversion HF; assumption.
Qed.

Lemma first_bound_Some ms node m :
  first_bound ms node = Some m <->
  exists ms1 ms2,
    ms = ms1 ++ m :: ms2 /\ node_eqb (group0 m) node = true /\
    Forall (unbound node) ms1.
Proof.
  induction ms as [|m0 ms IH]; simpl.
  - split; [discriminate |].
    intros (ms1 & ms2 & E & _). destruct ms1; discriminate.
  - destruct (node_eqb (group0 m0) node) eqn:E.
    + split.
      * intros [= <-]. exists [], ms. repeat split; [assumption | constructor].
      * intros (ms1 & ms2 & Hms & Hb & HF).
        destruct ms1 as [|m1 ms1]; simpl in Hms.
        -- congruence.
        -- injection Hms as <- _. inversion HF as [|? ? Hm _].
           unfold unbound in Hm. congruence.
    + rewrite IH. split.
      * intros (ms1 & ms2 & -> & Hb & HF).
        exists (m0 :: ms1), ms2. repeat split; [assumption |].
        constructor; assumption.
      * intros (ms1 & ms2 & Hms & Hb & HF).
        destruct ms1 as [|m1 ms1]; simpl in Hms.
        -- injection Hms as -> _. congruence.
        -- injection Hms as <- ->. inversion HF.
           exists ms1, ms2. repeat split; assumption.
Qed.

Lemma scan_None patterns g node :
  scan patterns g node = None <->
  Forall (fun q => Forall (unbound node) (finditer q g)) patterns.
Proof.
  induction patterns as [|p ps IH]; simpl.
  - split; [constructor | reflexivity].
  - destruct (first_bound (finditer p g) node) eqn:E.
    + split; [discriminate |].
      intros HF. inversion HF as [|? ? Hp _].
      apply first_bound_None in Hp. congruence.
    + apply first_bound_None in E. rewrite IH. split.
      * intros HF. constructor; assumption.
      * intros HF. inversion HF; assumption.
Qed.

Lemma scan_Some patterns g node m :
  scan patterns g node = Some m <->
  exists pre p, earliest_match patterns g node pre p m.
Proof.
  unfold earliest_match.
  induction patterns as [|p0 ps IH]; simpl.
  - split; [discriminate |].
    intros (pre & p & post & ms1 & ms2 & E & _). destruct pre; discriminate.
  - destruct (first_bound (finditer p0 g) node) eqn:E.
    + split.
      * intros [= <-]. apply first_bound_Some in E as (ms1 & ms2 & E1 & Hb & HF).
        exists [], p0, ps, ms1, ms2. repeat split; try assumption. constructor.
      * intros (pre & p & post & ms1 & ms2 & Hps & Hfi & Hb & HF & Hpre).
        destruct pre as [|q pre]; simpl in Hps.
        -- injection Hps as <- <-. f_equal.
           assert (first_bound (finditer p0 g) node = Some m) as E'
             by (apply first_bound_Some; eauto).
           congruence.
        -- injection Hps as <- _. inversion Hpre as [|? ? Hq _].
           apply first_bound_None in Hq. congruence.
    + rewrite IH. apply first_bound_None in E. split.
      * intros (pre & p & post & ms1 & ms2 & -> & Hfi & Hb & HF & Hpre).
        exists (p0 :: pre), p, post, ms1, ms2.
        repeat split; try assumption. constructor; assumption.
      * intros (pre & p & post & ms1 & ms2 & Hps & Hfi & Hb & HF & Hpre).
        destruct pre as [|q pre]; simpl in Hps.
        -- injection Hps as -> _. rewrite Hfi in E.
           apply Forall_app in E as [_ E]. inversion E as [|? ? Hm _].
           unfold unbound in Hm. congruence.
        -- injection Hps as <- ->. inversion Hpre.
           exists pre, p, post, ms1, ms2. repeat split; assumption.
Qed.

Lemma not_binds_iff patterns g node :
  ~ binds patterns g node <->
  Forall (fun q => Forall (unbound node) (finditer q g)) patterns.
Proof.
  unfold binds, unbound. rewrite !List.Forall_forall. split.
  - intros Hn q Hq. apply List.Forall_forall. intros m Hm.
    destruct (node_eqb (group0 m) node) eqn:E; [|reflexivity].
    exfalso. apply Hn. eauto.
  - intros HF (q & m & Hq & Hm & Hb).
    specialize (HF q Hq). rewrite List.Forall_forall in HF.
    specialize (HF m Hm). congruence.
Qed.

Lemma scan_None_iff patterns g node :
  scan patterns g node = None <-> ~ binds patterns g node.
Proof. rewrite scan_None, not_binds_iff. reflexivity. Qed.

Lemma scan_binds patterns g node :
  binds patterns g node -> exists m, scan patterns g node = Some m.
Proof.
  intros Hb. destruct (scan patterns g node) as [m|] eqn:E; [eauto |].
  apply scan_None_iff in E. contradiction.
Qed.

Lemma earliest_match_bound patterns g node pre p m :
  earliest_match patterns g node pre p m ->
  In p patterns /\ In m (finditer p g) /\ node_eqb (group0 m) node = true.
Proof.
  intros (post & ms1 & ms2 & -> & Hfi & Hb & _).
  rewrite Hfi. repeat split; [| | assumption]; apply in_or_app; right; left; reflexivity.
Qed.

(** The patterns after the winning one play no part in the result. *)
Lemma earliest_match_cut patterns g node pre p m post' :
  earliest_match patterns g node pre p m ->
  scan (pre ++ p :: post') g node = Some m.
Proof.
  intros (post & ms1 & ms2 & _ & Hfi & Hb & HF & Hpre).
  apply scan_Some. exists pre, p, post', ms1, ms2. repeat split; assumption.
Qed.

(** The scan the spec describes for the negation set returns only matches
    that bind the candidate node. *)
Lemma match_neg_by_scan_bound patterns g node m :
  match_neg_by_scan patterns g node = Some m ->
  exists pattern,
    In pattern patterns /\ In m (finditer pattern g) /\
    node_eqb (group0 m) node = true.
Proof.
  intros E. apply scan_Some in E as (pre & p & E).
  exists p. eapply earliest_match_bound; eassumption.
Qed.

End MatchingFacts.

(** ** The detector *)

Section DetectorFacts.
Context {X : Type} `{NB : NegBio X}.

(** One candidate node yields nothing or one detection, and a detection
    carries the location it was found for. *)
Lemma detect_node_cases (self : ModifiedDetector) g loc node :
  detect_node self g loc node = [] \/
  exists label m, detect_node self g loc node = [(label, m, loc)].
Proof.
  unfold detect_node.
  destruct (if_truthy (match_prenegation_uncertainty self g node)); [eauto |].
  destruct (if_truthy (match_neg (neg_patterns self) g node)); [eauto |].
  destruct (if_truthy (match_uncertainty self g node)); eauto.
Qed.

Lemma detect_nodes_flat (self : ModifiedDetector) g loc nodes :
  detect_nodes self g loc nodes = flat_map (detect_node self g loc) nodes.
Proof. induction nodes as [|n ns IH]; simpl; congruence. Qed.

(** The two loops of [detect] walk the visits in order. *)
Lemma detect_locs_visits (self : ModifiedDetector) g locs :
  detect_locs self g locs =
  flat_map (fun v => detect_node self g (fst v) (snd v)) (visits g locs).
Proof.
  unfold visits. induction locs as [|loc locs IH]; [reflexivity |].
  cbn [detect_locs flat_map]. rewrite IH, flat_map_app, detect_nodes_flat. f_equal.
  induction (find_nodes g (fst loc) (snd loc)) as [|n ns IHn]; simpl; congruence.
Qed.

Lemma detect_graph (self : ModifiedDetector) sentence g locs :
  graph_of sentence = Some g ->
  detect self sentence locs =
  {| logged := []; yielded := detect_locs self g locs; raised := None |}.
Proof.
  unfold graph_of, detect.
  destruct (semgraph_load sentence) as [r|g0]; [discriminate |].
  destruct (propagate g0) as [r|g1]; [discriminate |].
  intros [= ->]. reflexivity.
Qed.

Lemma in_visits g locs loc node :
  In loc locs -> In node (find_nodes g (fst loc) (snd loc)) ->
  In (loc, node) (visits g locs).
Proof.
  intros Hl Hn. unfold visits. apply in_flat_map. exists loc. split; [assumption |].
  apply in_map. assumption.
Qed.

Lemma flat_map_length_le {A B} (f : A -> list B) (l : list A) :
  (forall a, length (f a) <= 1)%nat ->
  (length (flat_map f l) <= length l)%nat.
Proof.
  intros Hf. induction l as [|a l IH]; simpl; [lia |].
  rewrite length_app. specialize (Hf a). lia.
Qed.

(** A list built from at most one element per item of [l] corresponds,
    element by element, to a subsequence of [l]. *)
Lemma flat_map_sublist {A B} (f : A -> list B) (l : list A) :
  (forall a, length (f a) <= 1)%nat ->
  exists kept,
    sublist kept l /\ Forall2 (fun b a => f a = [b]) (flat_map f l) kept.
Proof.
  intros Hf. induction l as [|a l (kept & Hs & HF)]; simpl.
  - exists []. split; constructor.
  - destruct (f a) as [|b [|b' bs]] eqn:E.
    + exists kept. split; [apply sublist_cons; assumption | assumption].
    + exists (a :: kept). split; [apply sublist_skip; assumption |].
      simpl. constructor; assumption.
    + specialize (Hf a). rewrite E in Hf. simpl in Hf. lia.
Qed.

Lemma sublist_map {A B} (f : A -> B) (l k : list A) :
  sublist l k -> sublist (map f l) (map f k).
Proof.
  induction 1; simpl; [constructor | apply sublist_skip | apply sublist_cons];
    assumption.
Qed.

(** C9. [match_uncertainty] and [match_prenegation_uncertainty] return
    [None] exactly when no pattern of their set has a match whose
    [group(0)] equals the candidate node, and a match they return was
    produced by a pattern of the set and has [group(0) == node]. *)
Theorem no_match_iff_unbound (self : ModifiedDetector) g node :
  (match_uncertainty self g node = None <->
   ~ binds (uncertain_patterns self) g node) /\
  (match_prenegation_uncertainty self g node = None <->
   ~ binds (preneg_uncertain_patterns self) g node) /\
  (forall m, match_uncertainty self g node = Some m ->
     node_eqb (group0 m) node = true /\
     exists p, In p (uncertain_patterns self) /\ In m (finditer p g)) /\
  (forall m, match_prenegation_uncertainty self g node = Some m ->
     node_eqb (group0 m) node = true /\
     exists p, In p (preneg_uncertain_patterns self) /\ In m (finditer p g)).
Proof.
  unfold match_uncertainty, match_prenegation_uncertainty.
  repeat split; try (apply scan_None_iff);
    match goal with
    | H : scan _ _ _ = Some _ |- _ =>
        apply scan_Some in H as (pre & p & H);
        apply earliest_match_bound in H as (Hp & Hm & Hb)
    end; eauto.
Qed.

(** C2. When patterns of an uncertainty set bind the candidate node, the
    match [match_uncertainty] (and likewise
    [match_prenegation_uncertainty]) returns is the first binding match of
    the earliest binding pattern in load order, and the patterns after that
    one are not consulted: a detector whose set agrees up to that pattern
    returns the same match. *)
Theorem earliest_pattern_wins (self : ModifiedDetector) g node :
  (binds (uncertain_patterns self) g node ->
   exists pre p m,
     earliest_match (uncertain_patterns self) g node pre p m /\
     match_uncertainty self g node = Some m /\
     forall self' post',
       uncertain_patterns self' = pre ++ p :: post' ->
       match_uncertainty self' g node = Some m) /\
  (binds (preneg_uncertain_patterns self) g node ->
   exists pre p m,
     earliest_match (preneg_uncertain_patterns self) g node pre p m /\
     match_prenegation_uncertainty self g node = Some m /\
     forall self' post',
       preneg_uncertain_patterns self' = pre ++ p :: post' ->
       match_prenegation_uncertainty self' g node = Some m).
Proof.
  unfold match_uncertainty, match_prenegation_uncertainty.
  split; intros Hb; apply scan_binds in Hb as [m E];
    pose proof E as E'; apply scan_Some in E' as (pre & p & He);
    exists pre, p, m; (split; [assumption |]); (split; [assumption |]);
    intros self' post' ->; eapply earliest_match_cut; eassumption.
Qed.

(** C1. When match objects are true and the candidate node is bound by a
    pattern of the pre-negation-uncertainty set and by a pattern of the
    negation set, the node yields exactly the UNCERTAINTY detection with
    the pre-negation match, [detect] yields that detection, the node
    yields no NEGATION detection, and the negation and post-negation sets
    play no part: a detector with other such sets yields the same. *)
Theorem prenegation_wins (self : ModifiedDetector) sentence g locs loc node :
  matches_truthy ->
  graph_of sentence = Some g ->
  In loc locs ->
  In node (find_nodes g (fst loc) (snd loc)) ->
  binds (preneg_uncertain_patterns self) g node ->
  binds (neg_patterns self) g node ->
  exists m,
    match_prenegation_uncertainty self g node = Some m /\
    detect_node self g loc node = [(UNCERTAINTY, m, loc)] /\
    In (UNCERTAINTY, m, loc) (yielded (detect self sentence locs)) /\
    (forall m' loc', ~ In (NEGATION, m', loc') (detect_node self g loc node)) /\
    (forall self',
       preneg_uncertain_patterns self' = preneg_uncertain_patterns self ->
       detect_node self' g loc node = [(UNCERTAINTY, m, loc)]).
Proof.
  intros Ht Hg Hloc Hnode Hpre _.
  apply scan_binds in Hpre as [m E]. exists m.
  assert (forall self',
            preneg_uncertain_patterns self' = preneg_uncertain_patterns self ->
            detect_node self' g loc node = [(UNCERTAINTY, m, loc)]) as Hany.
  { intros self' Hsame. unfold detect_node, match_prenegation_uncertainty.
    rewrite Hsame, E. simpl. rewrite Ht. reflexivity. }
  pose proof (Hany self eq_refl) as Hself.
  repeat split; try assumption.
  - rewrite (detect_graph self sentence g locs Hg). simpl. rewrite detect_locs_visits.
    apply in_flat_map. exists (loc, node). split.
    + apply in_visits; assumption.
    + simpl. rewrite Hself. left. reflexivity.
  - intros m' loc'. rewrite Hself. intros [H|[]]. discriminate.
Qed.

(** C3 (amended). A candidate node yields at most one
    detection, so a location yields at most one detection per node that
    overlaps it, and a sentence at most one per visit of a node. *)
Theorem at_most_one_per_node (self : ModifiedDetector) sentence g :
  graph_of sentence = Some g ->
  (forall loc node, (length (detect_node self g loc node) <= 1)%nat) /\
  (forall loc,
     (length (yielded (detect self sentence [loc]))
      <= length (find_nodes g (fst loc) (snd loc)))%nat) /\
  (forall locs,
     (length (yielded (detect self sentence locs)) <= length (visits g locs))%nat).
Proof.
  intros Hg.
  assert (forall loc node, (length (detect_node self g loc node) <= 1)%nat) as H1.
  { intros loc node.
    destruct (detect_node_cases self g loc node) as [-> | (l & m & ->)]; simpl; lia. }
  assert (forall locs,
           (length (yielded (detect self sentence locs))
            <= length (visits g locs))%nat) as H2.
  { intros locs. rewrite (detect_graph self sentence g locs Hg). simpl.
    rewrite detect_locs_visits. apply flat_map_length_le.
    intros [loc node]. apply H1. }
  repeat split; try assumption.
  intros loc. specialize (H2 [loc]). unfold visits in H2. simpl in H2.
  rewrite app_nil_r, length_map in H2. exact H2.
Qed.

(** C4. When [match_neg] only returns matches that bind the candidate
    node, a node that no pattern of the three sets binds yields no
    detection, and a location all of whose nodes are unbound yields none
    either. *)
Theorem unbound_node_yields_nothing (self : ModifiedDetector) sentence g :
  match_neg_bound ->
  graph_of sentence = Some g ->
  (forall loc node,
     ~ binds (preneg_uncertain_patterns self) g node ->
     ~ binds (neg_patterns self) g node ->
     ~ binds (uncertain_patterns self) g node ->
     detect_node self g loc node = []) /\
  (forall loc,
     (forall node, In node (find_nodes g (fst loc) (snd loc)) ->
        ~ binds (preneg_uncertain_patterns self) g node /\
        ~ binds (neg_patterns self) g node /\
        ~ binds (uncertain_patterns self) g node) ->
     yielded (detect self sentence [loc]) = []).
Proof.
  intros Hneg Hg.
  assert (forall loc node,
     ~ binds (preneg_uncertain_patterns self) g node ->
     ~ binds (neg_patterns self) g node ->
     ~ binds (uncertain_patterns self) g node ->
     detect_node self g loc node = []) as H1.
  { intros loc node Hpre Hn Hpost. unfold detect_node.
    apply scan_None_iff in Hpre. apply scan_None_iff in Hpost.
    unfold match_prenegation_uncertainty, match_uncertainty.
    rewrite Hpre, Hpost. simpl.
    destruct (match_neg (neg_patterns self) g node) as [m|] eqn:E; [|reflexivity].
    exfalso. apply Hn. apply Hneg in E as (p & Hp & Hm & Hb).
    exists p, m. repeat split; assumption. }
  split; [exact H1 |].
  intros loc Hall. rewrite (detect_graph self sentence g [loc] Hg). simpl.
  rewrite app_nil_r, detect_nodes_flat.
  induction (find_nodes g (fst loc) (snd loc)) as [|n ns IH]; simpl; [reflexivity |].
  destruct (Hall n (or_introl eq_refl)) as (Ha & Hb & Hc).
  rewrite (H1 loc n Ha Hb Hc). simpl. apply IH.
  intros node Hin. apply Hall. right. assumption.
Qed.

(** C5. The detections [detect] yields are, one for one and in the same
    order, the detections of a subsequence of the visits, where the visits
    go through the locations in input order and, within a location,
    through the nodes in the order [find_nodes] produces them; so the
    locations of the detections follow the order of the input. *)
Theorem detections_in_visit_order (self : ModifiedDetector) sentence g locs :
  graph_of sentence = Some g ->
  yielded (detect self sentence locs) =
    flat_map (fun v => detect_node self g (fst v) (snd v)) (visits g locs) /\
  (exists kept,
     sublist kept (visits g locs) /\
     Forall2 (fun d v => detect_node self g (fst v) (snd v) = [d] /\ snd d = fst v)
       (yielded (detect self sentence locs)) kept) /\
  sublist (map snd (yielded (detect self sentence locs)))
          (map fst (visits g locs)).
Proof.
  intros Hg. rewrite (detect_graph self sentence g locs Hg). simpl.
  rewrite detect_locs_visits.
  set (f := fun v : Loc * Node => detect_node self g (fst v) (snd v)).
  assert (forall v, (length (f v) <= 1)%nat) as H1.
  { intros [loc node]. unfold f. simpl.
    destruct (detect_node_cases self g loc node) as [-> | (l & m & ->)]; simpl; lia. }
  destruct (flat_map_sublist f (visits g locs) H1) as (kept & Hs & HF).
  assert (Forall2 (fun d v => f v = [d] /\ snd d = fst v)
            (flat_map f (visits g locs)) kept) as HF'.
  { eapply Forall2_impl; [exact HF |].
    intros d [loc node] E. split; [exact E |].
    unfold f in E. simpl in *.
    destruct (detect_node_cases self g loc node) as [E0 | (l & m & E1)];
      [congruence |].
    rewrite E1 in E. injection E as <-. reflexivity. }
  split; [reflexivity |]. split.
  - exists kept. split; assumption.
  - assert (map snd (flat_map f (visits g locs)) = map fst kept) as ->.
    { clear -HF'. induction HF' as [|d v ds vs [_ Hd] _ IH]; simpl; congruence. }
    apply sublist_map. exact Hs.
Qed.

(** C6. When loading or propagating the dependency graph of a sentence
    raises an exception, [detect] logs one record at level ERROR whose
    message ends in the offset of the sentence, raises the same exception
    and yields nothing. *)
Theorem graph_failure_logged_and_raised (self : ModifiedDetector) sentence locs r :
  graph_failure sentence = Some r ->
  isinstance_Exception r = true ->
  detect self sentence locs =
    {| logged := [mkLog ERROR (cannot_parse_message sentence) (Some r)];
       yielded := [];
       raised := Some r |} /\
  cannot_parse_message sentence =
    "Cannot parse dependency graph [offset=" +:+
    NilZero.string_of_int (Z.to_int (offset sentence)) +:+ "]".
Proof.
  intros Hf Hexc. split; [|reflexivity].
  unfold graph_failure in Hf. unfold detect.
  destruct (semgraph_load sentence) as [r0|g].
  - injection Hf as ->. unfold on_graph_failure. rewrite Hexc. reflexivity.
  - destruct (propagate g) as [r0|g']; [|discriminate].
    injection Hf as ->. unfold on_graph_failure. rewrite Hexc. reflexivity.
Qed.

(** X7. What is raised without being an [Exception] passes through
    [detect] unlogged: no record, no detection, the same object raised. *)
Lemma graph_failure_not_caught (self : ModifiedDetector) sentence locs r :
  graph_failure sentence = Some r ->
  isinstance_Exception r = false ->
  detect self sentence locs = {| logged := []; yielded := []; raised := Some r |}.
Proof.
  intros Hf Hexc. unfold graph_failure in Hf. unfold detect.
  destruct (semgraph_load sentence) as [r0|g].
  - injection Hf as ->. unfold on_graph_failure. rewrite Hexc. reflexivity.
  - destruct (propagate g) as [r0|g']; [|discriminate].
    injection Hf as ->. unfold on_graph_failure. rewrite Hexc. reflexivity.
Qed.

End DetectorFacts.

(** ** The classifier *)

Section ClassifierFacts.
Context {X : Type} `{NB : NegBio X}.

(** The loop body, statement by statement: where it stops, what it has
    recorded by then, and what it raises. *)
Lemma classify_document_run (self : Classifier) i d tr :
  classify_document self i (d, tr) =
  match parse_doc d with
  | (d1, Some r) => ((d1, tr ++ [ParseDoc i]), inl r)
  | (d1, None) =>
      match convert_doc d1 with
      | (d2, Some r) => ((d2, tr ++ [ParseDoc i; ConvertDoc i]), inl r)
      | (d2, None) =>
          match negdetect_detect (detect (detector self)) d2 with
          | (d3, Some r) =>
              ((d3, tr ++ [ParseDoc i; ConvertDoc i; NegDetect i]), inl r)
          | (d3, None) =>
              match del_sentences d3 with
              | (d4, Some r) => ((d4, tr ++ steps_of i), inl r)
              | (d4, None) => ((d4, tr ++ steps_of i), inr tt)
              end
          end
      end
  end.
Proof.
  unfold classify_document, bind, in_place, steps_of. simpl.
  destruct (parse_doc d) as [d1 [r|]]; simpl; [reflexivity |].
  destruct (convert_doc d1) as [d2 [r|]]; simpl;
    [rewrite <- !app_assoc; reflexivity |].
  destruct (negdetect_detect (detect (detector self)) d2) as [d3 [r|]]; simpl;
    [rewrite <- !app_assoc; reflexivity |].
  destruct (del_sentences d3) as [d4 [r|]]; simpl;
    rewrite <- !app_assoc; reflexivity.
Qed.

Lemma del_sentences_ok (d3 d' : BioCDocument X) :
  del_sentences d3 = (d', None) <->
  exists p0 ps,
    passages d3 = p0 :: ps /\
    d' = mkDocument (mkPassage [] (passage_data p0) :: ps) (document_data d3).
Proof.
  unfold del_sentences. destruct (passages d3) as [|p0 ps].
  - split; [discriminate |]. intros (? & ? & ? & _). discriminate.
  - split.
    + intros [= <-]. eauto.
    + intros (q0 & qs & [= <- <-] & ->). reflexivity.
Qed.

Lemma del_sentences_fails (d3 d' : BioCDocument X) r :
  del_sentences d3 = (d', Some r) <->
  passages d3 = [] /\ d' = d3 /\ r = IndexError.
Proof.
  unfold del_sentences. destruct (passages d3) as [|p0 ps].
  - split.
    + intros [= <- <-]. auto.
    + intros (_ & -> & ->). reflexivity.
  - split; [discriminate |]. intros (? & _). discriminate.
Qed.

(** The loop body completes exactly when the three collaborators complete
    and the document then has a first passage. *)
Lemma classify_document_ok (self : Classifier) i d tr d' tr' u :
  classify_document self i (d, tr) = ((d', tr'), inr u) ->
  tr' = tr ++ steps_of i /\
  exists d3, through_detection self d = (d3, None) /\ del_sentences d3 = (d', None).
Proof.
  rewrite classify_document_run. unfold through_detection.
  destruct (parse_doc d) as [d1 [r|]]; [discriminate |].
  destruct (convert_doc d1) as [d2 [r|]]; [discriminate |].
  destruct (negdetect_detect (detect (detector self)) d2) as [d3 [r|]];
    [discriminate |].
  destruct (del_sentences d3) as [d4 [r|]] eqn:E; [discriminate |].
  intros [= <- <-]. split; [reflexivity |]. exists d3. split; [reflexivity | exact E].
Qed.

(** A document that comes out of detection without passages stops the
    loop body at its last statement. *)
Lemma classify_document_no_passage (self : Classifier) i d tr d3 :
  through_detection self d = (d3, None) ->
  passages d3 = [] ->
  classify_document self i (d, tr) = ((d3, tr ++ steps_of i), inl IndexError).
Proof.
  rewrite classify_document_run. unfold through_detection.
  destruct (parse_doc d) as [d1 [r|]]; [discriminate |].
  destruct (convert_doc d1) as [d2 [r|]]; [discriminate |].
  destruct (negdetect_detect (detect (detector self)) d2) as [d3' [r|]];
    [discriminate |].
  intros [= ->] Hp. unfold del_sentences. rewrite Hp. reflexivity.
Qed.

Lemma classify_loop_ok (self : Classifier) docs :
  forall i tr,
    failure (classify_loop self i docs tr) = None ->
    Forall2 (fun d d' =>
               exists d3, through_detection self d = (d3, None) /\
                          del_sentences d3 = (d', None))
            docs (documents_after (classify_loop self i docs tr)) /\
    trace (classify_loop self i docs tr)
      = tr ++ flat_map steps_of (seq i (length docs)).
Proof.
  induction docs as [|d docs IH]; intros i tr; simpl.
  - intros _. split; [constructor | rewrite app_nil_r; reflexivity].
  - destruct (classify_document self i (d, tr)) as [[d' tr'] [r|u]] eqn:E; simpl;
      [discriminate |].
    intros Hf. apply classify_document_ok in E as (-> & d3 & H3 & Hdel).
    destruct (IH (S i) (tr ++ steps_of i) Hf) as (HF & Htr).
    split.
    + constructor; [eauto | exact HF].
    + rewrite Htr, <- app_assoc. reflexivity.
Qed.

Lemma classify_loop_trace (self : Classifier) docs :
  forall i tr,
    exists rest,
      tr ++ flat_map steps_of (seq i (length docs))
      = trace (classify_loop self i docs tr) ++ rest.
Proof.
  induction docs as [|d docs IH]; intros i tr; simpl.
  - exists []. reflexivity.
  - rewrite classify_document_run.
    destruct (parse_doc d) as [d1 [r|]]; simpl.
    { eexists. rewrite <- app_assoc. reflexivity. }
    destruct (convert_doc d1) as [d2 [r|]]; simpl.
    { eexists. rewrite <- app_assoc. reflexivity. }
    destruct (negdetect_detect (detect (detector self)) d2) as [d3 [r|]]; simpl.
    { eexists. rewrite <- app_assoc. reflexivity. }
    destruct (del_sentences d3) as [d4 [r|]]; simpl.
    { eexists. rewrite <- app_assoc. reflexivity. }
    destruct (IH (S i) (tr ++ steps_of i)) as [rest Hrest].
    exists rest. rewrite <- Hrest, <- app_assoc. reflexivity.
Qed.

Lemma lookup_middle {A} (pre : list A) d post :
  (pre ++ d :: post) !! length pre = Some d.
Proof. induction pre; simpl; [reflexivity | assumption]. Qed.

Lemma insert_middle {A} (pre : list A) d d' post :
  <[length pre := d']> (pre ++ d :: post) = pre ++ d' :: post.
Proof. induction pre; simpl; [reflexivity | f_equal; assumption]. Qed.

(** A step on the document at position [length pre]. *)
Lemma perform_at (self : Classifier) ev f pre d post tr fl :
  action self ev = Some (length pre, f) ->
  perform self ev (mkOutcome (pre ++ d :: post) tr fl) =
  mkOutcome (pre ++ fst (f d) :: post) (tr ++ [ev]) (snd (f d)).
Proof.
  intros Ha. unfold perform. rewrite Ha. simpl.
  rewrite lookup_middle. destruct (f d) as [d' r]. simpl.
  rewrite insert_middle. reflexivity.
Qed.

(** The loop from position [length pre] on does what running the steps of
    the remaining documents one by one does. *)
Lemma classify_loop_schedule (self : Classifier) docs :
  forall pre tr,
    run_schedule self (flat_map steps_of (seq (length pre) (length docs)))
      (mkOutcome (pre ++ docs) tr None)
    = mkOutcome
        (pre ++ documents_after (classify_loop self (length pre) docs tr))
        (trace (classify_loop self (length pre) docs tr))
        (failure (classify_loop self (length pre) docs tr)).
Proof.
  induction docs as [|d docs IH]; intros pre tr.
  - reflexivity.
  - cbn [length seq flat_map classify_loop steps_of app run_schedule].
    rewrite classify_document_run.
    rewrite (perform_at self _ parse_doc) by reflexivity.
    destruct (parse_doc d) as [d1 [r|]]; cbn [fst snd failure]; [reflexivity |].
    rewrite (perform_at self _ convert_doc) by reflexivity.
    destruct (convert_doc d1) as [d2 [r|]]; cbn [fst snd failure];
      [rewrite <- !app_assoc; reflexivity |].
    rewrite (perform_at self _ (negdetect_detect (detect (detector self))))
      by reflexivity.
    destruct (negdetect_detect (detect (detector self)) d2) as [d3 [r|]];
      cbn [fst snd failure]; [rewrite <- !app_assoc; reflexivity |].
    rewrite (perform_at self _ del_sentences) by reflexivity.
    destruct (del_sentences d3) as [d4 [r|]]; cbn [fst snd failure];
      [rewrite <- !app_assoc; reflexivity |].
    cbn [documents_after trace failure].
    rewrite <- !app_assoc. cbn [app].
    replace (pre ++ d4 :: docs) with ((pre ++ [d4]) ++ docs)
      by (rewrite <- app_assoc; reflexivity).
    replace (S (length pre)) with (length (pre ++ [d4]))
      by (rewrite length_app; simpl; lia).
    rewrite (IH (pre ++ [d4])). rewrite <- app_assoc. reflexivity.
Qed.

(** Every step of the schedule occurs in it once. *)
Lemma steps_from ev n :
  forall i, In ev (flat_map steps_of (seq i n)) ->
  exists j, (i <= j)%nat /\ In ev (steps_of j).
Proof.
  induction n as [|n IH]; intros i; simpl; [tauto |].
  intros [H|[H|[H|[H|H]]]];
    try (exists i; split; [lia | rewrite <- H; simpl; tauto]).
  destruct (IH (S i) H) as (j & Hj & Hin). exists j. split; [lia | exact Hin].
Qed.

Lemma NoDup_steps n : forall i, List.NoDup (flat_map steps_of (seq i n)).
Proof.
  induction n as [|n IH]; intros i; simpl; [constructor |].
  assert (forall ev, In ev (steps_of i) ->
                     ~ In ev (flat_map steps_of (seq (S i) n))) as Hfresh.
  { intros ev Hev Hin. apply steps_from in Hin as (j & Hj & Hin).
    simpl in Hev, Hin.
    destruct Hev as [<-|[<-|[<-|[<-|[]]]]];
      destruct Hin as [[=]|[[=]|[[=]|[[=]|[]]]]]; lia. }
  repeat constructor; try apply IH;
    try (apply Hfresh; simpl; tauto);
    simpl; intros Hin;
    repeat (destruct Hin as [[=]|Hin]);
    revert Hin; apply Hfresh; simpl; tauto.
Qed.

Lemma NoDup_schedule (self : Classifier) n : List.NoDup (schedule self n).
Proof.
  unfold schedule. destruct (verbose self); simpl; [|apply NoDup_steps].
  constructor; [|apply NoDup_steps].
  intros Hin. apply steps_from in Hin as (j & _ & Hin).
  simpl in Hin. destruct Hin as [[=]|[[=]|[[=]|[[=]|[]]]]].
Qed.
(** C7. [classify] does what running the schedule does: the steps parse,
    convert, detect (with the classifier's detector handed to the
    aggregation routine) and discard, for the documents in collection
    order, each step once, ending at the first step that raises, whose
    exception is the outcome. What it has done is always a beginning of
    the schedule, the whole schedule when nothing is raised, and holds no
    step twice. *)
Theorem classify_runs_schedule (self : Classifier) (collection : BioCCollection) :
  classify self collection =
    run_schedule self (schedule self (length (documents collection)))
      (mkOutcome (documents collection) [] None) /\
  (exists rest,
     schedule self (length (documents collection))
     = trace (classify self collection) ++ rest) /\
  (failure (classify self collection) = None ->
   trace (classify self collection)
   = schedule self (length (documents collection))) /\
  List.NoDup (trace (classify self collection)).
Proof.
  assert (exists rest,
            schedule self (length (documents collection))
            = trace (classify self collection) ++ rest) as Hprefix
    by (unfold classify, schedule; apply classify_loop_trace).
  split; [|split; [exact Hprefix |split]]; cycle 2.
  { destruct Hprefix as [rest Hrest].
    pose proof (NoDup_schedule self (length (documents collection))) as Hnd.
    rewrite Hrest in Hnd. apply NoDup_app_remove_r in Hnd. exact Hnd. }
  all: unfold classify, schedule.
  - pose proof (classify_loop_schedule self (documents collection) []) as H.
    simpl in H.
    destruct (verbose self); cbn [app run_schedule perform action failure
      documents_after trace]; rewrite H;
      destruct (classify_loop self 0 (documents collection) _); reflexivity.
  - intros Hf. apply classify_loop_ok in Hf as (_ & Htr). exact Htr.
Qed.

(** What the loop has done to the documents it got through does not
    depend on what comes after them. *)
Lemma classify_loop_done (self : Classifier) pre :
  forall i tr rest,
    failure (classify_loop self i pre tr) = None ->
    Forall2
      (fun d d' =>
         exists d3, through_detection self d = (d3, None) /\
                    del_sentences d3 = (d', None))
      pre
      (firstn (length pre)
         (documents_after (classify_loop self i (pre ++ rest) tr))).
Proof.
  induction pre as [|d0 pre IH]; intros i tr rest Hf; simpl in *.
  - constructor.
  - destruct (classify_document self i (d0, tr)) as [[d' tr'] [r|u]] eqn:E;
      simpl in *; [discriminate |].
    apply classify_document_ok in E as (-> & d3 & H3 & Hdel).
    constructor; [eauto |]. apply IH. exact Hf.
Qed.

(** C8 (amended). Once [classify] has processed a document, whatever
    happens to the documents after it, the document has lost the
    sentences of its first passage, and their text with them; the rest of
    the first passage, every further passage with its sentences and their
    text, and the rest of the document are as the detection step left
    them. *)
Theorem first_passage_emptied (self : Classifier) pre rest data :
  failure (classify self (mkCollection pre data)) = None ->
  Forall2
    (fun d d' =>
       exists d3 p0 ps,
         through_detection self d = (d3, None) /\
         passages d3 = p0 :: ps /\
         d' = mkDocument (mkPassage [] (passage_data p0) :: ps) (document_data d3) /\
         retained_text d' = flat_map (fun p => map text (sentences p)) ps)
    pre
    (firstn (length pre)
       (documents_after (classify self (mkCollection (pre ++ rest) data)))).
Proof.
  intros Hf. unfold classify in *. simpl in *.
  eapply Forall2_impl; [apply classify_loop_done; exact Hf |].
  intros d d' (d3 & H3 & Hdel).
  apply del_sentences_ok in Hdel as (p0 & ps & Hp & ->).
  exists d3, p0, ps. repeat split; assumption || reflexivity.
Qed.

Lemma classify_loop_no_passage (self : Classifier) pre :
  forall i tr d post d3,
    failure (classify_loop self i pre tr) = None ->
    through_detection self d = (d3, None) ->
    passages d3 = [] ->
    failure (classify_loop self i (pre ++ d :: post) tr) = Some IndexError /\
    last (trace (classify_loop self i (pre ++ d :: post) tr))
      = Some (DelSentences (i + length pre)).
Proof.
  induction pre as [|d0 pre IH]; intros i tr d post d3 Hf H3 Hp; simpl in *.
  - rewrite (classify_document_no_passage self i d tr d3 H3 Hp). simpl.
    rewrite Nat.add_0_r. unfold steps_of.
    change [ParseDoc i; ConvertDoc i; NegDetect i; DelSentences i]
      with ([ParseDoc i; ConvertDoc i; NegDetect i] ++ [DelSentences i]).
    rewrite app_assoc.
    split; [reflexivity | apply last_snoc].
  - destruct (classify_document self i (d0, tr)) as [[d' tr'] [r|u]]; simpl in *;
      [discriminate |].
    replace (i + S (length pre))%nat with (S i + length pre)%nat by lia.
    apply (IH (S i) tr' d post d3 Hf H3 Hp).
Qed.

(** C10. [classify] completes only on collections whose documents all
    have a passage when their sentences are to be removed; a document that
    has none by then makes the loop body raise [IndexError] at that
    statement, after the three collaborators have run; and the statement
    empties the sentences of the first passage only, the further passages
    keeping theirs. *)
Theorem classify_needs_first_passage (self : Classifier) :
  (forall collection,
     failure (classify self collection) = None ->
     Forall (fun d => exists d3,
               through_detection self d = (d3, None) /\ passages d3 <> [])
            (documents collection)) /\
  (forall pre d post d3 collection_data,
     failure (classify self (mkCollection pre collection_data)) = None ->
     through_detection self d = (d3, None) ->
     passages d3 = [] ->
     failure (classify self (mkCollection (pre ++ d :: post) collection_data))
       = Some IndexError /\
     last (trace (classify self (mkCollection (pre ++ d :: post) collection_data)))
       = Some (DelSentences (length pre))) /\
  (forall d p0 ps,
     passages d = p0 :: ps ->
     del_sentences d
     = (mkDocument (mkPassage [] (passage_data p0) :: ps) (document_data d), None)).
Proof.
  split; [|split].
  - intros collection Hf. unfold classify in Hf.
    apply classify_loop_ok in Hf as (HF & _).
    induction HF as [|d d' ds ds' (d3 & H3 & Hdel) _ IH]; constructor; [|exact IH].
    exists d3. split; [exact H3 |].
    apply del_sentences_ok in Hdel as (p0 & ps & -> & _). discriminate.
  - intros pre d post d3 cd Hf H3 Hp. unfold classify in *. simpl in *.
    apply (classify_loop_no_passage self pre 0 _ d post d3 Hf H3 Hp).
  - intros d p0 ps Hp. unfold del_sentences. rewrite Hp. reflexivity.
Qed.

End ClassifierFacts.

(** ** The statements on the concrete instance *)

Import Toy.

Lemma toy_truthy : matches_truthy.
Proof. intros m. reflexivity. Defined.

(** Scenario B: rule 7 of the pre-negation set and rule 1 of the negation
    set both bind "edema"; the detection is UNCERTAINTY with rule 7. *)
Lemma prenegation_wins_witness :
  exists m,
    match_prenegation_uncertainty both_sets tokens 3%nat = Some m /\
    detect_node both_sets tokens edema 3%nat = [(UNCERTAINTY, m, edema)] /\
    In (UNCERTAINTY, m, edema) (yielded (detect both_sets no_evidence_of_edema [edema])) /\
    (forall m' loc', ~ In (NEGATION, m', loc') (detect_node both_sets tokens edema 3%nat)) /\
    (forall self',
       preneg_uncertain_patterns self' = preneg_uncertain_patterns both_sets ->
       detect_node self' tokens edema 3%nat = [(UNCERTAINTY, m, edema)]).
Proof.
  apply (prenegation_wins both_sets no_evidence_of_edema tokens [edema] edema 3%nat).
  - exact toy_truthy.
  - reflexivity.
  - left. reflexivity.
  - simpl. tauto.
  - exists (7%nat, [3%nat]), (7%nat, 3%nat). simpl. tauto.
  - exists (1%nat, [2%nat; 3%nat]), (1%nat, 3%nat). simpl. tauto.
Defined.

(** Rules 7 and 8 of the pre-negation set both bind "edema"; rule 7 is
    loaded first and wins. *)
Lemma earliest_pattern_wins_witness :
  exists pre p m,
    earliest_match (preneg_uncertain_patterns both_sets) tokens 3%nat pre p m /\
    match_prenegation_uncertainty both_sets tokens 3%nat = Some m /\
    forall self' post',
      preneg_uncertain_patterns self' = pre ++ p :: post' ->
      match_prenegation_uncertainty self' tokens 3%nat = Some m.
Proof.
  apply (proj2 (earliest_pattern_wins both_sets tokens 3%nat)).
  exists (8%nat, [3%nat]), (8%nat, 3%nat). simpl. tauto.
Defined.

(** C3 (counterexample). "of" and "edema" both overlap the location
    (52, 60), rule 1 of the negation set binds both, and the one location
    gets two detections. *)
Lemma one_location_two_detections :
  In of_edema [of_edema] /\
  find_nodes tokens (fst of_edema) (snd of_edema) = [2%nat; 3%nat] /\
  yielded (detect negation_only no_evidence_of_edema [of_edema])
  = [(NEGATION, (1%nat, 2%nat), of_edema); (NEGATION, (1%nat, 3%nat), of_edema)] /\
  ~ (length (yielded (detect negation_only no_evidence_of_edema [of_edema])) <= 1)%nat.
Proof.
  split; [left; reflexivity |]. split; [reflexivity |]. split; [reflexivity |].
  simpl. lia.
Qed.

Lemma at_most_one_per_node_witness :
  (forall loc node, (length (detect_node negation_only tokens loc node) <= 1)%nat) /\
  (forall loc,
     (length (yielded (detect negation_only no_evidence_of_edema [loc]))
      <= length (find_nodes tokens (fst loc) (snd loc)))%nat) /\
  (forall locs,
     (length (yielded (detect negation_only no_evidence_of_edema locs))
      <= length (visits tokens locs))%nat).
Proof.
  apply (at_most_one_per_node negation_only no_evidence_of_edema tokens).
  reflexivity.
Defined.

(** Scenario C: no rule binds "evidence". *)
Lemma unbound_node_yields_nothing_witness :
  detect_node negation_only tokens (43, 51) 1%nat = [] /\
  yielded (detect negation_only no_evidence_of_edema [(43, 51)]) = [].
Proof.
  destruct (unbound_node_yields_nothing negation_only no_evidence_of_edema tokens)
    as [Hnode Hloc].
  - intros patterns graph node m. apply match_neg_by_scan_bound.
  - reflexivity.
  - assert (forall ps, scan ps tokens 1%nat = None -> ~ binds ps tokens 1%nat) as Hn
      by (intros ps; apply scan_None_iff).
    split.
    + apply Hnode; apply Hn; reflexivity.
    + apply Hloc. simpl. intros node [<-|[]].
      repeat split; apply Hn; reflexivity.
Defined.

Lemma detections_in_visit_order_witness :
  yielded (detect both_sets no_evidence_of_edema [edema; of_edema]) =
    flat_map (fun v => detect_node both_sets tokens (fst v) (snd v))
      (visits tokens [edema; of_edema]) /\
  (exists kept,
     sublist kept (visits tokens [edema; of_edema]) /\
     Forall2 (fun d v => detect_node both_sets tokens (fst v) (snd v) = [d] /\
                         snd d = fst v)
       (yielded (detect both_sets no_evidence_of_edema [edema; of_edema])) kept) /\
  sublist (map snd (yielded (detect both_sets no_evidence_of_edema [edema; of_edema])))
          (map fst (visits tokens [edema; of_edema])).
Proof.
  apply (detections_in_visit_order both_sets no_evidence_of_edema tokens [edema; of_edema]).
  reflexivity.
Defined.

(** Scenario D: the sentence at offset 17 has no dependency structure. *)
Lemma graph_failure_logged_and_raised_witness :
  detect both_sets malformed [edema] =
    {| logged := [mkLog ERROR "Cannot parse dependency graph [offset=17]"
                    (Some no_tokens)];
       yielded := [];
       raised := Some no_tokens |}.
Proof.
  apply (proj1 (graph_failure_logged_and_raised (NB:=negbio) both_sets malformed [edema]
                  no_tokens eq_refl eq_refl)).
Defined.

Lemma no_match_iff_unbound_witness :
  node_eqb (group0 (9%nat, 3%nat)) 3%nat = true /\
  exists p, In p (uncertain_patterns both_sets) /\ In (9%nat, 3%nat) (finditer p tokens).
Proof.
  apply (proj1 (proj2 (proj2 (no_match_iff_unbound both_sets tokens 3%nat)))).
  reflexivity.
Defined.

Lemma classify_runs_schedule_witness :
  trace (classify quiet reports)
  = [ParseDoc 0; ConvertDoc 0; NegDetect 0; DelSentences 0;
     ParseDoc 1; ConvertDoc 1; NegDetect 1; DelSentences 1].
Proof.
  apply (proj1 (proj2 (proj2 (classify_runs_schedule quiet reports)))).
  reflexivity.
Defined.

(** C8 (counterexample). The report has a second passage, whose sentence
    and its text are still there after [classify]; the first passage has
    lost its sentence together with the tokens stored on it. *)
Lemma text_retained_in_later_passage :
  failure (classify quiet (mkCollection [two_passages] [])) = None /\
  map retained_text (documents_after (classify quiet (mkCollection [two_passages] [])))
  = [["edema"%string]] /\
  map passages (documents_after (classify quiet (mkCollection [two_passages] [])))
  = [[passage_of []; passage_of [malformed]]].
Proof. repeat split. Qed.

(** The second report has no passage and stops the batch; the first one
    has been processed all the same. *)
Lemma first_passage_emptied_witness :
  Forall2
    (fun d d' =>
       exists d3 p0 ps,
         through_detection quiet d = (d3, None) /\
         passages d3 = p0 :: ps /\
         d' = mkDocument (mkPassage [] (passage_data p0) :: ps) (document_data d3) /\
         retained_text d' = flat_map (fun p => map text (sentences p)) ps)
    [two_passages]
    (firstn (length [two_passages])
       (documents_after
          (classify quiet (mkCollection ([two_passages] ++ [no_passage]) [])))).
Proof.
  apply (first_passage_emptied quiet [two_passages] [no_passage] []). reflexivity.
Defined.

(** A report without passages stops the batch at its last statement. *)
Lemma classify_needs_first_passage_witness :
  failure (classify quiet (mkCollection ([two_passages] ++ no_passage :: [two_passages]) []))
    = Some IndexError /\
  last (trace (classify quiet
                 (mkCollection ([two_passages] ++ no_passage :: [two_passages]) [])))
    = Some (DelSentences 1).
Proof.
  apply (proj1 (proj2 (classify_needs_first_passage quiet))
           [two_passages] no_passage [two_passages] no_passage []);
    reflexivity.
Defined.

(** * Further properties of the detector *)

Section RuleSets.
Context `{NG : Ngrex}.

Lemma scan_app ps extra g node :
  scan (ps ++ extra) g node =
  match scan ps g node with
  | Some m => Some m
  | None => scan extra g node
  end.
Proof.
  induction ps as [|p ps IH]; simpl; [reflexivity |].
  destruct (first_bound (finditer p g) node); [reflexivity | exact IH].
Qed.

End RuleSets.

Section DetectorMore.
Context {X : Type} `{NB : NegBio X}.

Lemma if_truthy_Some (r : option Match) m :
  if_truthy r = Some m -> r = Some m /\ match_truthy m = true.
Proof.
  destruct r as [m0|]; simpl; [|discriminate].
  destruct (match_truthy m0) eqn:E; [|discriminate].
  intros [= <-]. split; [reflexivity | exact E].
Qed.

Lemma scan_from_set patterns g node m :
  scan patterns g node = Some m ->
  node_eqb (group0 m) node = true /\
  exists p, In p patterns /\ In m (finditer p g).
Proof.
  intros E. apply scan_Some in E as (pre & p & E).
  apply earliest_match_bound in E as (Hp & Hm & Hb). eauto.
Qed.

(** X1. Rules appended to an uncertainty set never change a match the set
    already gives: the longer set returns the match of the shorter one
    when there is one, and only otherwise the match of the appended
    rules. *)
Theorem appended_rules_keep_matches (self self' : ModifiedDetector) extra g node :
  (uncertain_patterns self' = uncertain_patterns self ++ extra ->
   match_uncertainty self' g node =
   match match_uncertainty self g node with
   | Some m => Some m
   | None => scan extra g node
   end) /\
  (preneg_uncertain_patterns self' = preneg_uncertain_patterns self ++ extra ->
   match_prenegation_uncertainty self' g node =
   match match_prenegation_uncertainty self g node with
   | Some m => Some m
   | None => scan extra g node
   end).
Proof.
  unfold match_uncertainty, match_prenegation_uncertainty.
  split; intros ->; apply scan_app.
Qed.

(** X2. Negation comes before post-negation uncertainty: when no
    pre-negation pattern binds the node and [match_neg] returns a true
    match, the node yields exactly the NEGATION detection with that match,
    whatever the post-negation set holds. *)
Theorem negation_before_postnegation (self : ModifiedDetector) g loc node m :
  ~ binds (preneg_uncertain_patterns self) g node ->
  match_neg (neg_patterns self) g node = Some m ->
  match_truthy m = true ->
  detect_node self g loc node = [(NEGATION, m, loc)] /\
  (forall self',
     preneg_uncertain_patterns self' = preneg_uncertain_patterns self ->
     neg_patterns self' = neg_patterns self ->
     detect_node self' g loc node = [(NEGATION, m, loc)]).
Proof.
  intros Hpre Hneg Ht.
  assert (forall self',
     preneg_uncertain_patterns self' = preneg_uncertain_patterns self ->
     neg_patterns self' = neg_patterns self ->
     detect_node self' g loc node = [(NEGATION, m, loc)]) as Hany.
  { intros self' E1 E2. unfold detect_node, match_prenegation_uncertainty.
    apply scan_None_iff in Hpre. rewrite E1, Hpre, E2, Hneg. simpl.
    rewrite Ht. reflexivity. }
  split; [apply Hany; reflexivity | exact Hany].
Qed.

(** X3. Post-negation uncertainty is the last resort: when match objects
    are true, no pre-negation pattern binds the node and [match_neg]
    returns nothing, a node bound by the post-negation set yields exactly
    the UNCERTAINTY detection with the first binding match of the earliest
    binding post-negation pattern. *)
Theorem postnegation_fallback (self : ModifiedDetector) g loc node :
  matches_truthy ->
  ~ binds (preneg_uncertain_patterns self) g node ->
  match_neg (neg_patterns self) g node = None ->
  binds (uncertain_patterns self) g node ->
  exists pre p m,
    earliest_match (uncertain_patterns self) g node pre p m /\
    detect_node self g loc node = [(UNCERTAINTY, m, loc)].
Proof.
  intros Ht Hpre Hneg Hpost.
  apply scan_binds in Hpost as [m E].
  pose proof E as E'. apply scan_Some in E' as (pre & p & He).
  exists pre, p, m. split; [exact He |].
  unfold detect_node, match_prenegation_uncertainty, match_uncertainty.
  apply scan_None_iff in Hpre. rewrite Hpre, Hneg, E. simpl.
  rewrite Ht. reflexivity.
Qed.

(** X4. Every detection is accounted for: when [match_neg] only returns
    matches that bind the candidate node, a detection that [detect] yields
    carries one of the input locations, its match binds a node that
    [find_nodes] gave for that location, and the match was produced by a
    pattern of the negation set if the label is NEGATION and by a pattern
    of one of the two uncertainty sets if it is UNCERTAINTY. *)
Theorem detections_accounted_for (self : ModifiedDetector) sentence g locs
  label m loc :
  match_neg_bound ->
  graph_of sentence = Some g ->
  In (label, m, loc) (yielded (detect self sentence locs)) ->
  In loc locs /\
  exists node p,
    In node (find_nodes g (fst loc) (snd loc)) /\
    node_eqb (group0 m) node = true /\
    In m (finditer p g) /\
    match label with
    | NEGATION => In p (neg_patterns self)
    | UNCERTAINTY =>
        In p (preneg_uncertain_patterns self) \/ In p (uncertain_patterns self)
    end.
Proof.
  intros Hneg Hg Hin.
  rewrite (detect_graph self sentence g locs Hg) in Hin. simpl in Hin.
  rewrite detect_locs_visits in Hin.
  apply in_flat_map in Hin as ([loc' node] & Hv & Hd). simpl in Hd.
  unfold visits in Hv. apply in_flat_map in Hv as (loc0 & Hloc0 & Hn).
  apply in_map_iff in Hn as (node0 & [= -> ->] & Hnode).
  unfold detect_node, match_prenegation_uncertainty, match_uncertainty in Hd.
  destruct (if_truthy (scan (preneg_uncertain_patterns self) g node)) as [m1|] eqn:E1.
  { destruct Hd as [[= <- <- <-]|[]].
    apply if_truthy_Some in E1 as [E1 _].
    apply scan_from_set in E1 as (Hb & p & Hp & Hm).
    split; [exact Hloc0 |]. exists node, p. auto. }
  destruct (if_truthy (match_neg (neg_patterns self) g node)) as [m2|] eqn:E2.
  { destruct Hd as [[= <- <- <-]|[]].
    apply if_truthy_Some in E2 as [E2 _].
    apply Hneg in E2 as (p & Hp & Hm & Hb).
    split; [exact Hloc0 |]. exists node, p. auto. }
  destruct (if_truthy (scan (uncertain_patterns self) g node)) as [m3|] eqn:E3;
    [|destruct Hd].
  destruct Hd as [[= <- <- <-]|[]].
  apply if_truthy_Some in E3 as [E3 _].
  apply scan_from_set in E3 as (Hb & p & Hp & Hm).
  split; [exact Hloc0 |]. exists node, p. auto.
Qed.



(** X6. A detector without uncertainty rules only ever says NEGATION:
    when its pre-negation and post-negation sets are empty, every
    detection it yields has that label. *)
Theorem no_uncertainty_rules_only_negation (self : ModifiedDetector) sentence locs :
  preneg_uncertain_patterns self = [] ->
  uncertain_patterns self = [] ->
  Forall (fun d : Detection => fst (fst d) = NEGATION)
         (yielded (detect self sentence locs)).
Proof.
  intros Hpre Hpost. apply List.Forall_forall. intros [[label m] loc] Hin.
  simpl. unfold detect in Hin.
  destruct (semgraph_load sentence) as [r|g0].
  { unfold on_graph_failure in Hin.
    destruct (isinstance_Exception r); destruct Hin. }
  destruct (propagate g0) as [r|g].
  { unfold on_graph_failure in Hin.
    destruct (isinstance_Exception r); destruct Hin. }
  simpl in Hin. rewrite detect_locs_visits in Hin.
  apply in_flat_map in Hin as ([loc' node] & _ & Hd). simpl in Hd.
  unfold detect_node, match_prenegation_uncertainty, match_uncertainty in Hd.
  rewrite Hpre, Hpost in Hd. simpl in Hd.
  destruct (if_truthy (match_neg (neg_patterns self) g node)); [|destruct Hd].
  destruct Hd as [[= <- _ _]|[]]. reflexivity.
Qed.

End DetectorMore.

(** * Further properties of the classifier *)

Section ClassifierMore.
Context {X : Type} `{NB : NegBio X}.





Lemma classify_loop_length (self : Classifier) docs :
  forall i tr,
    length (documents_after (classify_loop self i docs tr)) = length docs.
Proof.
  induction docs as [|d docs IH]; intros i tr; simpl; [reflexivity |].
  destruct (classify_document self i (d, tr)) as [[d' tr'] [r|u]]; simpl;
    [reflexivity |]. rewrite IH. reflexivity.
Qed.

(** X10. [classify] neither adds nor drops documents, whether it completes
    or raises: the collection has as many documents after as before. *)
Theorem classify_keeps_document_count (self : Classifier) collection :
  length (documents_after (classify self collection))
  = length (documents collection).
Proof. unfold classify. apply classify_loop_length. Qed.

Lemma classify_loop_verbose (det : ModifiedDetector) b b' docs :
  forall i tr,
    classify_loop (mkClassifier b det) i docs tr
    = classify_loop (mkClassifier b' det) i docs tr.
Proof.
  induction docs as [|d docs IH]; intros i tr; simpl; [reflexivity |].
  change (classify_document (mkClassifier b det) i (d, tr))
    with (classify_document (mkClassifier b' det) i (d, tr)).
  destruct (classify_document (mkClassifier b' det) i (d, tr))
    as [[d' tr'] [r|u]]; [reflexivity |].
  rewrite IH. reflexivity.
Qed.

Lemma classify_loop_earlier (self : Classifier) docs :
  forall i t0 tr,
    classify_loop self i docs (t0 ++ tr) =
    mkOutcome (documents_after (classify_loop self i docs tr))
              (t0 ++ trace (classify_loop self i docs tr))
              (failure (classify_loop self i docs tr)).
Proof.
  induction docs as [|d docs IH]; intros i t0 tr; simpl; [reflexivity |].
  rewrite !classify_document_run.
  destruct (parse_doc d) as [d1 [r|]];
    [simpl; rewrite <- app_assoc; reflexivity |].
  destruct (convert_doc d1) as [d2 [r|]];
    [simpl; rewrite <- app_assoc; reflexivity |].
  destruct (negdetect_detect (detect (detector self)) d2) as [d3 [r|]];
    [simpl; rewrite <- app_assoc; reflexivity |].
  destruct (del_sentences d3) as [d4 [r|]];
    [simpl; rewrite <- app_assoc; reflexivity |].
  simpl. rewrite <- app_assoc. rewrite IH. reflexivity.
Qed.

(** X11. The [verbose] flag changes nothing but the output: with it,
    [classify] first prints "Classifying mentions..." and then does to the
    documents exactly what it does without it, ending the same way. *)
Theorem verbose_only_prints (det : ModifiedDetector) collection :
  documents_after (classify (mkClassifier true det) collection)
  = documents_after (classify (mkClassifier false det) collection) /\
  failure (classify (mkClassifier true det) collection)
  = failure (classify (mkClassifier false det) collection) /\
  trace (classify (mkClassifier true det) collection)
  = Stdout "Classifying mentions..."
    :: trace (classify (mkClassifier false det) collection).
Proof.
  unfold classify. simpl.
  rewrite (classify_loop_verbose det true false).
  change [Stdout "Classifying mentions..."]
    with ([Stdout "Classifying mentions..."] ++ @nil Event).
  rewrite classify_loop_earlier. simpl. repeat split.
Qed.

Lemma classify_loop_completes (self : Classifier) docs :
  Forall (fun d => exists d3,
            through_detection self d = (d3, None) /\ passages d3 <> []) docs ->
  forall i tr, failure (classify_loop self i docs tr) = None.
Proof.
  induction 1 as [|d docs (d3 & H3 & Hp) _ IH]; intros i tr; simpl;
    [reflexivity |].
  rewrite classify_document_run. unfold through_detection in H3.
  destruct (parse_doc d) as [d1 [r|]]; [discriminate |].
  destruct (convert_doc d1) as [d2 [r|]]; [discriminate |].
  destruct (negdetect_detect (detect (detector self)) d2) as [d3' [r|]];
    [discriminate |].
  injection H3 as ->. unfold del_sentences.
  destruct (passages d3) as [|p0 ps]; [contradiction |].
  simpl. apply IH.
Qed.

(** X12. [classify] completes exactly on the collections all of whose
    documents get through parsing, conversion and detection without an
    exception and have a passage by then. *)
Theorem classify_completes_iff (self : Classifier) collection :
  failure (classify self collection) = None <->
  Forall (fun d => exists d3,
            through_detection self d = (d3, None) /\ passages d3 <> [])
         (documents collection).
Proof.
  unfold classify. split.
  - intros Hf. apply classify_loop_ok in Hf as (HF & _).
    induction HF as [|d d' ds ds' (d3 & H3 & Hdel) _ IH]; constructor; [|exact IH].
    exists d3. split; [exact H3 |].
    apply del_sentences_ok in Hdel as (p0 & ps & -> & _). discriminate.
  - intros HF. apply classify_loop_completes. exact HF.
Qed.

(** X13. When parsing, conversion or detection raises on a document, the
    loop body ends there with that exception: the document stays as the
    collaborator that raised left it, its sentences are not removed, and
    the steps recorded for it are a beginning of parse, convert, detect
    that stops short of the removal. *)
Theorem collaborator_failure_skips_removal (self : Classifier) i d tr d' r :
  through_detection self d = (d', Some r) ->
  exists done,
    classify_document self i (d, tr) = ((d', tr ++ done), inl r) /\
    (done = [ParseDoc i] \/ done = [ParseDoc i; ConvertDoc i] \/
     done = [ParseDoc i; ConvertDoc i; NegDetect i]) /\
    ~ In (DelSentences i) done.
Proof.
  intros H3. rewrite classify_document_run. unfold through_detection in H3.
  destruct (parse_doc d) as [d1 [r1|]].
  { injection H3 as -> ->. exists [ParseDoc i]. repeat split; [tauto |].
    simpl. intros [[=]|[]]. }
  destruct (convert_doc d1) as [d2 [r2|]].
  { injection H3 as -> ->. exists [ParseDoc i; ConvertDoc i].
    repeat split; [tauto |]. simpl. intros [[=]|[[=]|[]]]. }
  destruct (negdetect_detect (detect (detector self)) d2) as [d3 [r3|]];
    [|discriminate].
  injection H3 as -> ->. exists [ParseDoc i; ConvertDoc i; NegDetect i].
  repeat split; [tauto |]. simpl. intros [[=]|[[=]|[[=]|[]]]].
Qed.

End ClassifierMore.

(** * Properties of the constructors *)

Section ConstructionFacts.
Context {X : Type} `{NB : NegBio X}.
Variable Path : Type.
Variable ngrex_load : Path -> Exc + list Pattern.

(** X14. A [ModifiedDetector] is obtained exactly when the three rule
    files load, and then holds the patterns of the first argument as its
    pre-negation set, of the second as its negation set and of the third
    as its post-negation set. When files fail to load, the exception is
    that of the negation file if it fails, else that of the post-negation
    file if it fails, else that of the pre-negation file. *)
Theorem detector_built_from_three_files pre_path neg_path post_path :
  (forall self,
     ModifiedDetector_init ngrex_load pre_path neg_path post_path = inr self <->
     ngrex_load pre_path = inr (preneg_uncertain_patterns self) /\
     ngrex_load neg_path = inr (neg_patterns self) /\
     ngrex_load post_path = inr (uncertain_patterns self)) /\
  (forall r,
     ModifiedDetector_init ngrex_load pre_path neg_path post_path = inl r <->
     ngrex_load neg_path = inl r \/
     (exists neg, ngrex_load neg_path = inr neg) /\
     (ngrex_load post_path = inl r \/
      (exists post, ngrex_load post_path = inr post) /\
      ngrex_load pre_path = inl r)).
Proof.
  unfold ModifiedDetector_init. split.
  - intros [neg post pre]. simpl.
    destruct (ngrex_load neg_path) as [r1|neg0].
    { split; [discriminate | intros (_ & [=] & _)]. }
    destruct (ngrex_load post_path) as [r2|post0].
    { split; [discriminate | intros (_ & _ & [=])]. }
    destruct (ngrex_load pre_path) as [r3|pre0].
    { split; [discriminate | intros ([=] & _)]. }
    split.
    + intros [= -> -> ->]. auto.
    + intros ([= ->] & [= ->] & [= ->]). reflexivity.
  - intros r.
    destruct (ngrex_load neg_path) as [r1|neg0].
    { split.
      - intros [= ->]. left. reflexivity.
      - intros [[= ->]|[[neg [=]] _]]. reflexivity. }
    destruct (ngrex_load post_path) as [r2|post0].
    { split.
      - intros [= ->]. right. split; [eauto |]. left. reflexivity.
      - intros [[=]|[_ [[= ->]|[[post [=]] _]]]]. reflexivity. }
    destruct (ngrex_load pre_path) as [r3|pre0].
    { split.
      - intros [= ->]. right. split; [eauto |]. right. split; [eauto | reflexivity].
      - intros [[=]|[_ [[=]|[_ [= ->]]]]]. reflexivity. }
    split; [discriminate |].
    intros [[=]|[_ [[=]|[_ [=]]]]].
Qed.

(** X15. The rules of the file given first win: for a detector built by
    the constructor, when match objects are true, a node bound by a rule
    of the pre-negation file yields the UNCERTAINTY detection with the
    first binding match of that file, whatever the other two files
    hold. *)
Theorem first_file_takes_precedence pre_path neg_path post_path self rules
  g loc node :
  matches_truthy ->
  ModifiedDetector_init ngrex_load pre_path neg_path post_path = inr self ->
  ngrex_load pre_path = inr rules ->
  binds rules g node ->
  exists m,
    scan rules g node = Some m /\
    detect_node self g loc node = [(UNCERTAINTY, m, loc)].
Proof.
  intros Ht Hinit Hload Hb. unfold ModifiedDetector_init in Hinit.
  destruct (ngrex_load neg_path) as [r1|neg0]; [discriminate |].
  destruct (ngrex_load post_path) as [r2|post0]; [discriminate |].
  rewrite Hload in Hinit. injection Hinit as <-.
  apply scan_binds in Hb as [m E]. exists m. split; [exact E |].
  unfold detect_node, match_prenegation_uncertainty. simpl.
  rewrite E. simpl. rewrite Ht. reflexivity.
Qed.

Variable NegBioParser : option Exc.
Variable Lemmatizer : option Exc.
Variable NegBioPtb2DepConverter : option Exc.

Lemma classify_loop_no_output (self : Classifier) docs :
  forall i tr line,
    ~ In (Stdout line) tr ->
    ~ In (Stdout line) (trace (classify_loop self i docs tr)).
Proof.
  intros i tr line Hno Hin.
  destruct (classify_loop_trace self docs i tr) as [rest Hrest].
  assert (In (Stdout line) (tr ++ flat_map steps_of (seq i (length docs)))) as H
    by (rewrite Hrest; apply in_or_app; left; exact Hin).
  apply in_app_or in H as [H|H]; [contradiction |].
  apply steps_from in H as (j & _ & H). simpl in H.
  destruct H as [[=]|[[=]|[[=]|[[=]|[]]]]].
Qed.

(** X16. A [Classifier] is obtained only when the parser, the lemmatizer
    and the converter are built and the three rule files load; it then
    holds the detector the detector's constructor builds from the three
    paths, and [classify] prints with it only if [verbose=True] was
    passed: left out or [False], no step of [classify] is an output. *)
Theorem classifier_built_quiet pre_path neg_path post_path verbose_arg self :
  Classifier_init ngrex_load NegBioParser Lemmatizer NegBioPtb2DepConverter
    pre_path neg_path post_path verbose_arg = inr self ->
  NegBioParser = None /\ Lemmatizer = None /\ NegBioPtb2DepConverter = None /\
  ModifiedDetector_init ngrex_load pre_path neg_path post_path
    = inr (detector self) /\
  (forall collection line,
     In (Stdout line) (trace (classify self collection)) ->
     verbose_arg = Some true).
Proof.
  unfold Classifier_init. intros H.
  destruct NegBioParser; [discriminate |].
  destruct Lemmatizer; [discriminate |].
  destruct NegBioPtb2DepConverter; [discriminate |].
  destruct (ModifiedDetector_init ngrex_load pre_path neg_path post_path)
    as [r|det]; [discriminate |].
  injection H as <-. repeat split.
  intros collection line Hin.
  destruct verbose_arg as [[|]|]; [reflexivity | |]; exfalso; revert Hin;
    unfold classify; simpl; apply classify_loop_no_output; intros [].
Qed.

End ConstructionFacts.

(** ** The further statements on the concrete instance *)

(** Rule 10 is appended to the post-negation file; "edema" keeps the match
    of rule 9. *)
Lemma appended_rules_keep_matches_witness :
  match_uncertainty ToyFiles.longer_file tokens 3%nat =
  match match_uncertainty ToyFiles.postnegation_only tokens 3%nat with
  | Some m => Some m
  | None => scan [(10%nat, [3%nat])] tokens 3%nat
  end.
Proof.
  apply (proj1 (appended_rules_keep_matches
                  ToyFiles.postnegation_only ToyFiles.longer_file
                  [(10%nat, [3%nat])] tokens 3%nat)).
  reflexivity.
Defined.

(** Scenario A: only the negation and post-negation files bind "edema". *)
Lemma negation_before_postnegation_witness :
  detect_node negation_only tokens edema 3%nat
  = [(NEGATION, (1%nat, 3%nat), edema)] /\
  (forall self',
     preneg_uncertain_patterns self' = preneg_uncertain_patterns negation_only ->
     neg_patterns self' = neg_patterns negation_only ->
     detect_node self' tokens edema 3%nat = [(NEGATION, (1%nat, 3%nat), edema)]).
Proof.
  apply (negation_before_postnegation negation_only tokens edema 3%nat
           (1%nat, 3%nat)).
  - apply scan_None_iff. reflexivity.
  - reflexivity.
  - reflexivity.
Defined.

Lemma postnegation_fallback_witness :
  exists pre p m,
    earliest_match [(9%nat, [3%nat])] tokens 3%nat pre p m /\
    detect_node ToyFiles.postnegation_only tokens edema 3%nat
    = [(UNCERTAINTY, m, edema)].
Proof.
  apply (postnegation_fallback ToyFiles.postnegation_only tokens edema 3%nat).
  - exact toy_truthy.
  - apply scan_None_iff. reflexivity.
  - reflexivity.
  - exists (9%nat, [3%nat]), (9%nat, 3%nat). simpl. tauto.
Defined.

Lemma detections_accounted_for_witness :
  In edema [edema] /\
  exists node p,
    In node (find_nodes tokens (fst edema) (snd edema)) /\
    node_eqb (group0 (7%nat, 3%nat)) node = true /\
    In (7%nat, 3%nat) (finditer p tokens) /\
    (In p (preneg_uncertain_patterns both_sets) \/
     In p (uncertain_patterns both_sets)).
Proof.
  apply (detections_accounted_for both_sets no_evidence_of_edema tokens
           [edema] UNCERTAINTY (7%nat, 3%nat) edema).
  - intros patterns graph node m. apply match_neg_by_scan_bound.
  - reflexivity.
  - left. reflexivity.
Defined.

Lemma no_uncertainty_rules_only_negation_witness :
  Forall (fun d : Detection => fst (fst d) = NEGATION)
    (yielded (detect ToyFiles.one_negation_rule no_evidence_of_edema [of_edema])).
Proof.
  apply (no_uncertainty_rules_only_negation ToyFiles.one_negation_rule
           no_evidence_of_edema [of_edema]); reflexivity.
Defined.

(** Loading the graph is interrupted from the keyboard: nothing is
    logged. *)
Lemma graph_failure_not_caught_witness :
  detect (NB := ToyFiles.interrupted) both_sets no_evidence_of_edema [edema]
  = {| logged := []; yielded := []; raised := Some (NonException tt) |}.
Proof.
  apply (graph_failure_not_caught (NB := ToyFiles.interrupted) both_sets
           no_evidence_of_edema [edema] (NonException tt)); reflexivity.
Defined.



Lemma classify_completes_iff_witness : failure (classify quiet reports) = None.
Proof.
  apply (proj2 (classify_completes_iff quiet reports)).
  repeat constructor; exists two_passages; (split; [reflexivity | discriminate]).
Defined.

(** The parser raises on the report without passages; the report is left
    alone and the removal is not attempted. *)
Lemma collaborator_failure_skips_removal_witness :
  exists done,
    classify_document (NB := ToyFiles.strict_parser) quiet 0 (no_passage, [])
    = ((no_passage, [] ++ done), inl (OtherException "nothing to parse")) /\
    (done = [ParseDoc 0] \/ done = [ParseDoc 0; ConvertDoc 0] \/
     done = [ParseDoc 0; ConvertDoc 0; NegDetect 0]) /\
    ~ In (DelSentences 0) done.
Proof.
  apply (collaborator_failure_skips_removal (NB := ToyFiles.strict_parser)
           quiet 0%nat no_passage [] no_passage
           (OtherException "nothing to parse")).
  reflexivity.
Defined.

Lemma first_file_takes_precedence_witness :
  exists m,
    scan [(6%nat, [0%nat]); (7%nat, [3%nat]); (8%nat, [3%nat])] tokens 3%nat
    = Some m /\
    detect_node both_sets tokens edema 3%nat = [(UNCERTAINTY, m, edema)].
Proof.
  apply (first_file_takes_precedence (NB := negbio) string ToyFiles.load
           "pre_negation_uncertainty.txt" "negation.txt"
           "post_negation_uncertainty.txt" both_sets
           [(6%nat, [0%nat]); (7%nat, [3%nat]); (8%nat, [3%nat])]
           tokens edema 3%nat).
  - exact toy_truthy.
  - reflexivity.
  - reflexivity.
  - exists (7%nat, [3%nat]), (7%nat, 3%nat). simpl. tauto.
Defined.

Lemma classifier_built_quiet_witness :
  ModifiedDetector_init (NB := negbio) ToyFiles.load
    "pre_negation_uncertainty.txt" "negation.txt"
    "post_negation_uncertainty.txt" = inr (detector quiet) /\
  (forall collection line,
     In (Stdout line) (trace (classify quiet collection)) ->
     @None bool = Some true).
Proof.
  apply (proj2 (proj2 (proj2
           (classifier_built_quiet (NB := negbio) string ToyFiles.load
              None None None
              "pre_negation_uncertainty.txt" "negation.txt"
              "post_negation_uncertainty.txt" None quiet eq_refl)))).
Defined.
